(** * scripts/run_compile_loop.py

  A shallow embedding of the script

<<
    source = sys.argv[1] if len(sys.argv) > 1 else '42'
    run(['node', 'dist/main.js'], input=source.encode())
>>

  together with the parts of the Python runtime it calls: [str.encode]
  (UTF-8, strict), list indexing, and [subprocess.run] over an operating
  system that is a parameter of the development.  The script is a
  computation in a state-and-exception monad whose state records, in
  order, what the invoker does to the child process, and what of the
  payload went into the child's pipe. *)

From Stdlib Require Import List NArith ZArith Lia Bool String Ascii.
Import ListNotations.

(** ** Python values *)

Module Py.

(** A Python [str] is a sequence of code points; lone surrogates are
    legal in a [str] (they are what [sys.argv] holds for argument bytes
    that are not valid UTF-8). *)
Definition codepoint := N.
Definition str := list codepoint.

(** A Python [bytes] object: a sequence of 8-bit values. *)
Definition bytes := list N.

(** A string literal of the script, all of whose characters are ASCII. *)
Definition lit (s : string) : str := map N_of_ascii (list_ascii_of_string s).

(** The bytes of a string of 8-bit characters, one byte per character. *)
Definition bytes_of_string (s : string) : bytes :=
  map Byte.to_N (list_byte_of_string s).

Inductive os_error : Type :=
| FileNotFoundError
| PermissionError
| BrokenPipeError
| OtherOSError (errno : N).

(** [OSError] is raised with a file name, [OSErrorPlain] is the same
    exception raised without one ([filename] is [None]). *)
Inductive exn : Type :=
| IndexError
| UnicodeEncodeError (position : nat) (c : codepoint)
| OSError (e : os_error) (filename : str)
| OSErrorPlain (e : os_error)
| CalledProcessError (returncode : Z) (cmd : list str).

Inductive result (A : Type) : Type :=
| Ok (a : A)
| Raise (e : exn).
Arguments Ok {A} a.
Arguments Raise {A} e.

(** *** [str.encode()], that is [encode('utf-8', 'strict')] *)

Definition is_surrogate (ch : codepoint) : bool :=
  ((0xD800 <=? ch) && (ch <=? 0xDFFF))%N.

(** One code point, as CPython's encoder emits it; [None] is the strict
    error handler being called. *)
Definition utf8_char (ch : codepoint) : option bytes :=
  if (ch <? 0x80)%N then
    Some [ch]
  else if (ch <? 0x800)%N then
    Some [N.lor 0xC0 (N.shiftr ch 6);
          N.lor 0x80 (N.land ch 0x3F)]
  else if is_surrogate ch then
    None
  else if (ch <? 0x10000)%N then
    Some [N.lor 0xE0 (N.shiftr ch 12);
          N.lor 0x80 (N.land (N.shiftr ch 6) 0x3F);
          N.lor 0x80 (N.land ch 0x3F)]
  else
    Some [N.lor 0xF0 (N.shiftr ch 18);
          N.lor 0x80 (N.land (N.shiftr ch 12) 0x3F);
          N.lor 0x80 (N.land (N.shiftr ch 6) 0x3F);
          N.lor 0x80 (N.land ch 0x3F)].

Fixpoint utf8_encode (pos : nat) (s : str) : result bytes :=
  match s with
  | [] => Ok []
  | ch :: rest =>
      match utf8_char ch with
      | None => Raise (UnicodeEncodeError pos ch)
      | Some b =>
          match utf8_encode (S pos) rest with
          | Ok bs => Ok (b ++ bs)
          | Raise e => Raise e
          end
      end
  end.

Definition encode (s : str) : result bytes := utf8_encode 0 s.

(** [l[i]] *)
Definition getitem {A : Type} (l : list A) (i : nat) : result A :=
  match nth_error l i with
  | Some x => Ok x
  | None => Raise IndexError
  end.

End Py.

(** ** The operating system, as the invoker sees it *)

Module OS.
Import Py.

(** What a child process does once it runs: its exit status (negative
    when a signal killed it), what it printed on the descriptors it
    inherits from the invoker, and how many of the bytes offered on its
    standard input went into the pipe before the child stopped reading
    and the pipe broke (a count of at least their number: all of them). *)
Record child_result : Type := {
  returncode : Z;
  child_stdout : bytes;
  child_stderr : bytes;
  stdin_accepted : nat
}.

(** A launch succeeds, or the program cannot be executed (the error comes
    back from the forked child and carries the name of the executable),
    or no process can be made at all (the pipe or the fork fails, and the
    error carries no file name). *)
Inductive spawn_result : Type :=
| Spawned
| SpawnFailed (e : os_error)
| ForkFailed (e : os_error).

(** The environment of one run: whether a command can be launched, and
    what the launched command does when the invoker offers it bytes on
    its standard input. *)
Record env : Type := {
  os_spawn : list str -> spawn_result;
  child_run : list str -> bytes -> child_result
}.

(** What the invoker does to the child, in the order in which it happens:
    a launch attempt; a call of [stdin.write] with its data; the closing
    of the child's standard input; the reaping of the child, with what
    the child did; a kill; the exit of the interpreter.  A [close()] on a
    stream already closed and a [wait()] on a child already reaped change
    nothing and leave no event. *)
Inductive event : Type :=
| EvSpawn (args : list str) (r : spawn_result)
| EvWrite (data : bytes)
| EvClose
| EvWait (r : child_result)
| EvKill
| EvExit (status : Z).

(** [offered] is what the write calls were given, [pipe] what of it went
    into the child's pipe. *)
Record world : Type := {
  trace : list event;
  offered : bytes;
  pipe : bytes;
  stdin_open : bool;
  child_status : option Z
}.

Definition initial : world :=
  {| trace := []; offered := []; pipe := []; stdin_open := false;
     child_status := None |}.

End OS.

(** ** The monad of the script: state and exceptions *)

Module Eff.
Import Py OS.

Definition M (A : Type) : Type := world -> result A * world.

Definition ret {A : Type} (a : A) : M A := fun w => (Ok a, w).

Definition bind {A B : Type} (m : M A) (k : A -> M B) : M B :=
  fun w =>
    match m w with
    | (Ok a, w') => k a w'
    | (Raise e, w') => (Raise e, w')
    end.

Definition raise {A : Type} (e : exn) : M A := fun w => (Raise e, w).

Definition lift {A : Type} (r : result A) : M A := fun w => (r, w).

Definition emit (ev : event) : M unit :=
  fun w => (Ok tt, {| trace := trace w ++ [ev];
                      offered := offered w;
                      pipe := pipe w;
                      stdin_open := stdin_open w;
                      child_status := child_status w |}).

(** [try: m except Exception as e: handler(e)] *)
Definition try_except {A : Type} (m : M A) (handler : exn -> M A) : M A :=
  fun w =>
    match m w with
    | (Ok a, w') => (Ok a, w')
    | (Raise e, w') => handler e w'
    end.

(** [try: m finally: cleanup] *)
Definition finally {A : Type} (m : M A) (cleanup : M unit) : M A :=
  fun w =>
    match m w with
    | (r, w') =>
        match cleanup w' with
        | (Ok _, w'') => (r, w'')
        | (Raise e, w'') => (Raise e, w'')
        end
    end.

End Eff.

Declare Scope eff_scope.
Delimit Scope eff_scope with eff.
Notation "x <- m ;; k" := (Eff.bind m (fun x => k))
(at level 100, m at next level, right associativity) : eff_scope.
Notation "m ;; k" := (Eff.bind m (fun _ => k))
(at level 100, right associativity) : eff_scope.

(** ** [subprocess] *)

Module Subprocess.
Import Py OS Eff.
Local Open Scope eff_scope.

Record Popen : Type := {
  popen_args : list str;
  popen_stdin : bool          (* [stdin=PIPE] *)
}.

Record CompletedProcess : Type := {
  cp_args : list str;
  cp_returncode : option Z;
  cp_stdout : option bytes;
  cp_stderr : option bytes
}.

Section WithEnv.
Variable E : env.

(** [Popen(args, stdin=PIPE)]: the launch either succeeds or raises
    the operating system's error.  Only an error of the exec, reported
    by the forked child, carries a file name: the executable, [args[0]]. *)
Definition popen (args : list str) (stdin_pipe : bool) : M Popen :=
  emit (EvSpawn args (os_spawn E args)) ;;
  match os_spawn E args with
  | Spawned =>
      (fun w => (Ok {| popen_args := args; popen_stdin := stdin_pipe |},
                 {| trace := trace w; offered := []; pipe := [];
                    stdin_open := stdin_pipe; child_status := None |}))
  | SpawnFailed e => raise (OSError e (hd [] args))
  | ForkFailed e => raise (OSErrorPlain e)
  end.

(** [self.stdin.write(input)]: the pipe takes what the child lets it
    take; when that is not everything the call raises
    [BrokenPipeError].  (The stream is buffered: bytes the call leaves in
    the buffer go out, or are lost in the same way, when the stream is
    closed; the handler around the close is the same.) *)
Definition stdin_write_bytes (p : Popen) (data : bytes) : M unit :=
  emit (EvWrite data) ;;
  (fun w =>
     let all := offered w ++ data in
     let n := stdin_accepted (child_run E (popen_args p) all) in
     let w' := {| trace := trace w; offered := all; pipe := firstn n all;
                  stdin_open := stdin_open w;
                  child_status := child_status w |} in
     if (List.length all <=? n)%nat then (Ok tt, w')
     else (Raise (OSErrorPlain BrokenPipeError), w')).

(** [self.stdin.close()]; closing a closed stream does nothing. *)
Definition stdin_close : M unit :=
  fun w =>
    if stdin_open w then
      (Ok tt, {| trace := trace w ++ [EvClose]; offered := offered w;
                 pipe := pipe w; stdin_open := false;
                 child_status := child_status w |})
    else (Ok tt, w).

(** [except BrokenPipeError: pass], and the same for [EINVAL]: what
    [communicate] must ignore. *)
Definition ignore_broken_pipe (m : M unit) : M unit :=
  try_except m
    (fun e =>
       match e with
       | OSErrorPlain BrokenPipeError => ret tt
       | OSErrorPlain (OtherOSError 22) => ret tt
       | _ => raise e
       end).

(** [_stdin_write]: [if input: self.stdin.write(input)], then close,
    each under the handler above. *)
Definition stdin_write (p : Popen) (input : option bytes) : M unit :=
  match input with
  | Some (b :: bs) => ignore_broken_pipe (stdin_write_bytes p (b :: bs))
  | Some [] | None => ret tt
  end ;;
  ignore_broken_pipe stdin_close.

(** [wait]: blocks until the child has exited and stores its status; on
    a child already reaped it returns the stored status. *)
Definition wait (p : Popen) : M Z :=
  fun w =>
    match child_status w with
    | Some rc => (Ok rc, w)
    | None =>
        let r := child_run E (popen_args p) (offered w) in
        (Ok (returncode r),
         {| trace := trace w ++ [EvWait r]; offered := offered w;
            pipe := pipe w; stdin_open := stdin_open w;
            child_status := Some (returncode r) |})
    end.

(** [kill]: nothing to do once the child has been reaped. *)
Definition kill : M unit :=
  fun w =>
    match child_status w with
    | Some _ => (Ok tt, w)
    | None => emit EvKill w
    end.

(** [communicate(input)] when at most the standard input is a pipe. *)
Definition communicate (p : Popen) (input : option bytes)
  : M (option bytes * option bytes) :=
  (if popen_stdin p then stdin_write p input else ret tt) ;;
  wait p ;;
  ret (None, None).

Definition poll : M (option Z) := fun w => (Ok (child_status w), w).

(** [Popen.__exit__]: close the standard input, then wait. *)
Definition popen_exit (p : Popen) : M unit :=
  finally (if popen_stdin p then stdin_close else ret tt)
          (wait p ;; ret tt).

(** The truth value of [retcode]: [None] and [0] are false. *)
Definition truthy (retcode : option Z) : bool :=
  match retcode with
  | Some rc => negb (rc =? 0)%Z
  | None => false
  end.

(** [run(args, input=input, check=check)]:
<<
      with Popen(args, stdin=PIPE) as process:
          try:
              stdout, stderr = process.communicate(input)
          except:
              process.kill()
              raise
          retcode = process.poll()
          if check and retcode:
              raise CalledProcessError(retcode, process.args, ...)
      return CompletedProcess(process.args, retcode, stdout, stderr)
>> *)
Definition run (args : list str) (input : option bytes) (check : bool)
  : M CompletedProcess :=
  p <- popen args (match input with Some _ => true | None => false end) ;;
  res <- finally
           (out <- try_except (communicate p input)
                              (fun e => kill ;; raise e) ;;
            retcode <- poll ;;
            if check && truthy retcode then
              raise (CalledProcessError
                       (match retcode with Some rc => rc | None => 0%Z end)
                       args)
            else
              ret (out, retcode))
           (popen_exit p) ;;
  ret {| cp_args := popen_args p;
         cp_returncode := snd res;
         cp_stdout := fst (fst res);
         cp_stderr := snd (fst res) |}.

End WithEnv.

End Subprocess.

(** ** The script *)

Module RunCompileLoop.
Import Py OS Eff Subprocess.
Local Open Scope eff_scope.

(** The command of line 8. *)
Definition command : list str := [lit "node"; lit "dist/main.js"].

(** Line 7: [source = sys.argv[1] if len(sys.argv) > 1 else '42'] *)
Definition source (argv : list str) : M str :=
  if (1 <? List.length argv)%nat then lift (getitem argv 1) else ret (lit "42").

(** Lines 7 and 8; [check] is not passed, so it has its default. *)
Definition script (E : env) (argv : list str) : M unit :=
  source <- source argv ;;
  payload <- lift (encode source) ;;
  run E command (Some payload) false ;;
  ret tt.

(** One run of the interpreter on the script: what it did, the
    exception that ended it, if any, its exit status, and what went into
    the child's pipe. *)
Record outcome : Type := {
  events : list event;
  uncaught : option exn;
  exit_status : Z;
  stdin_received : bytes
}.

Definition main (E : env) (argv : list str) : outcome :=
  match script E argv initial with
  | (Ok _, w) =>
      {| events := trace w ++ [EvExit 0]; uncaught := None; exit_status := 0;
         stdin_received := pipe w |}
  | (Raise e, w) =>
      {| events := trace w ++ [EvExit 1]; uncaught := Some e; exit_status := 1;
         stdin_received := pipe w |}
  end.

(** *** Observations on a run *)

(** The commands the invoker tried to launch. *)
Fixpoint spawn_attempts (tr : list event) : list (list str) :=
  match tr with
  | [] => []
  | EvSpawn args _ :: tr' => args :: spawn_attempts tr'
  | _ :: tr' => spawn_attempts tr'
  end.

(** The commands that were launched: the child processes started. *)
Fixpoint children_started (tr : list event) : list (list str) :=
  match tr with
  | [] => []
  | EvSpawn args Spawned :: tr' => args :: children_started tr'
  | _ :: tr' => children_started tr'
  end.

(** Every byte the invoker handed to a write on the child's standard
    input. *)
Fixpoint stdin_sent (tr : list event) : bytes :=
  match tr with
  | [] => []
  | EvWrite data :: tr' => data ++ stdin_sent tr'
  | _ :: tr' => stdin_sent tr'
  end.

(** The exit statuses of the children the invoker waited for. *)
Fixpoint child_exits (tr : list event) : list Z :=
  match tr with
  | [] => []
  | EvWait r :: tr' => returncode r :: child_exits tr'
  | _ :: tr' => child_exits tr'
  end.

(** The same run with what the child did blanked out. *)
Definition no_result : child_result :=
  {| returncode := 0; child_stdout := []; child_stderr := [];
     stdin_accepted := 0 |}.

Definition forget_child (ev : event) : event :=
  match ev with
  | EvWait _ => EvWait no_result
  | _ => ev
  end.

(** A child failed: the invoker waited for a child whose status is not 0. *)
Definition child_failed (o : outcome) : Prop :=
  exists rc : Z, In rc (child_exits (events o)) /\ rc <> 0%Z.

(** The run started exactly one child process. *)
Definition starts_one_child (o : outcome) : Prop :=
  List.length (children_started (events o)) = 1%nat.

(** The invoker failed: an uncaught exception or a non-zero exit. *)
Definition invoker_failed (o : outcome) : Prop :=
  uncaught o <> None \/ exit_status o <> 0%Z.

(** The string line 7 selects, read off the argument list. *)
Definition selected (argv : list str) : str :=
  match argv with
  | _ :: a :: _ => a
  | _ => lit "42"
  end.

(** The write calls [communicate] makes for a payload. *)
Definition write_events (payload : bytes) : list event :=
  match payload with
  | [] => []
  | _ :: _ => [EvWrite payload]
  end.

End RunCompileLoop.

(** ** UTF-8 as RFC 3629 tabulates it

    The reference against which [Py.utf8_char] is compared: the number of
    bytes by range of the code point, the payload bits six at a time. *)

Module RFC3629.
Import Py.
Local Open Scope N_scope.

Definition utf8_reference (ch : codepoint) : option bytes :=
  if ch <=? 0x7F then
    Some [ch]
  else if ch <=? 0x7FF then
    Some [192 + ch / 64; 128 + ch mod 64]
  else if (0xD800 <=? ch) && (ch <=? 0xDFFF) then
    None
  else if ch <=? 0xFFFF then
    Some [224 + ch / 4096; 128 + (ch / 64) mod 64; 128 + ch mod 64]
  else
    Some [240 + ch / 262144; 128 + (ch / 4096) mod 64;
          128 + (ch / 64) mod 64; 128 + ch mod 64].

(** A string is encoded code point by code point; a surrogate has no
    encoding, and then neither has the string. *)
Fixpoint utf8_string (s : str) : option bytes :=
  match s with
  | [] => Some []
  | ch :: rest =>
      match utf8_reference ch, utf8_string rest with
      | Some b, Some bs => Some (b ++ bs)
      | _, _ => None
      end
  end.

(** The code points a Python [str] can hold. *)
Definition valid_str (s : str) : Prop := Forall (fun ch => ch <= 0x10FFFF) s.

End RFC3629.

(** ** Sample environments and invocations *)

Module Samples.
Import Py OS.

(** A child that reads its input to the end, then exits with [rc]. *)
Definition child_exiting (rc : Z) : list str -> bytes -> child_result :=
  fun _ input => {| returncode := rc; child_stdout := []; child_stderr := [];
                    stdin_accepted := List.length input |}.

(** A child that exits with [rc] without reading: the pipe takes what
    its buffer holds, 65536 bytes, and breaks. *)
Definition child_not_reading (rc : Z) : list str -> bytes -> child_result :=
  fun _ input => {| returncode := rc; child_stdout := []; child_stderr := [];
                    stdin_accepted := N.to_nat 65536 |}.

Definition env_node_not_reading (rc : Z) : env :=
  {| os_spawn := fun _ => Spawned; child_run := child_not_reading rc |}.

(** An argument of 100000 characters [a]. *)
Definition long_argument : str := repeat 0x61%N (N.to_nat 100000).

(** [node] is installed; the child exits with [rc]. *)
Definition env_node (rc : Z) : env :=
  {| os_spawn := fun _ => Spawned; child_run := child_exiting rc |}.

(** [node] is not on the search path. *)
Definition env_no_node : env :=
  {| os_spawn := fun _ => SpawnFailed FileNotFoundError;
     child_run := child_exiting 0 |}.

Definition prog : str := lit "scripts/run_compile_loop.py".

(** What [sys.argv[1]] holds when the argument is the single byte 0xFF. *)
Definition undecodable : str := [0xDCFF%N].

End Samples.

(** ** Reading a payload back

    A strict UTF-8 decoder: the lead byte gives the length of a sequence,
    every other byte must be a continuation byte, and a sequence is
    refused when a shorter one encodes the same value, when its value is
    a surrogate and when it is above U+10FFFF. *)

Module Decoder.
Import Py.
Local Open Scope N_scope.

Definition is_continuation (b : N) : bool := (0x80 <=? b) && (b <? 0xC0).

(** The values of a sequence of two, three and four bytes. *)
Definition value2 (b0 b1 : N) : codepoint :=
  (b0 - 0xC0) * 64 + (b1 - 0x80).

Definition value3 (b0 b1 b2 : N) : codepoint :=
  (b0 - 0xE0) * 4096 + (b1 - 0x80) * 64 + (b2 - 0x80).

Definition value4 (b0 b1 b2 b3 : N) : codepoint :=
  (b0 - 0xF0) * 262144 + (b1 - 0x80) * 4096 + (b2 - 0x80) * 64 + (b3 - 0x80).

Fixpoint utf8_decode (bs : bytes) : option str :=
  match bs with
  | [] => Some []
  | b0 :: r0 =>
      if b0 <? 0x80 then
        option_map (cons b0) (utf8_decode r0)
      else if b0 <? 0xC0 then
        None
      else
        match r0 with
        | [] => None
        | b1 :: r1 =>
            if negb (is_continuation b1) then None
            else if b0 <? 0xE0 then
              if value2 b0 b1 <? 0x80 then None
              else option_map (cons (value2 b0 b1)) (utf8_decode r1)
            else
              match r1 with
              | [] => None
              | b2 :: r2 =>
                  if negb (is_continuation b2) then None
                  else if b0 <? 0xF0 then
                    if (value3 b0 b1 b2 <? 0x800)
                       || is_surrogate (value3 b0 b1 b2) then None
                    else
                      option_map (cons (value3 b0 b1 b2)) (utf8_decode r2)
                  else
                    match r2 with
                    | [] => None
                    | b3 :: r3 =>
                        if negb (is_continuation b3) then None
                        else if 0xF8 <=? b0 then None
                        else if (value4 b0 b1 b2 b3 <? 0x10000)
                                || (0x10FFFF <? value4 b0 b1 b2 b3) then None
                        else
                          option_map (cons (value4 b0 b1 b2 b3))
                                     (utf8_decode r3)
                    end
              end
        end
  end.

End Decoder.

(** ** The exits of a run *)

Module Calls.
Import Py OS.

(** The exit statuses the interpreter reported. *)
Fixpoint invoker_exits (tr : list event) : list Z :=
  match tr with
  | [] => []
  | EvExit st :: tr' => st :: invoker_exits tr'
  | _ :: tr' => invoker_exits tr'
  end.

End Calls.

Import Py OS Eff Subprocess RunCompileLoop Samples.

(** * Properties *)

(** ** The encoder *)

Section Utf8.
Local Open Scope N_scope.

Tactic Notation "by_cases_below" ident(x) integer(n) :=
  destruct x as [|x]; [reflexivity|];
  do n (destruct x as [x|x|]; try reflexivity; try lia).

Lemma lor_continuation (x : N) : x < 64 -> N.lor 0x80 x = 128 + x.
Proof. intros H. by_cases_below x 6. Qed.

Lemma lor_lead2 (x : N) : x < 32 -> N.lor 0xC0 x = 192 + x.
Proof. intros H. by_cases_below x 5. Qed.

Lemma lor_lead3 (x : N) : x < 16 -> N.lor 0xE0 x = 224 + x.
Proof. intros H. by_cases_below x 4. Qed.

Lemma lor_lead4 (x : N) : x < 8 -> N.lor 0xF0 x = 240 + x.
Proof. intros H. by_cases_below x 3. Qed.

Lemma low_six_bits (x : N) : N.land x 0x3F = x mod 64.
Proof. change 0x3F with (N.ones 6). rewrite N.land_ones. reflexivity. Qed.

(** The shifts and masks of the encoder compute the table of the RFC. *)
Lemma utf8_char_reference (ch : codepoint) :
  ch <= 0x10FFFF -> utf8_char ch = RFC3629.utf8_reference ch.
Proof.
  intros Hmax. unfold utf8_char, RFC3629.utf8_reference, is_surrogate.
  rewrite !low_six_bits, !N.shiftr_div_pow2.
  change (2 ^ 6) with 64. change (2 ^ 12) with 4096. change (2 ^ 18) with 262144.
  assert (ch mod 64 < 64) by (apply N.mod_lt; lia).
  assert ((ch / 64) mod 64 < 64) by (apply N.mod_lt; lia).
  assert ((ch / 4096) mod 64 < 64) by (apply N.mod_lt; lia).
  destruct (N.ltb_spec ch 0x80); destruct (N.leb_spec ch 0x7F); try lia;
    [reflexivity|].
  destruct (N.ltb_spec ch 0x800); destruct (N.leb_spec ch 0x7FF); try lia.
  { rewrite lor_lead2, lor_continuation; [reflexivity|assumption|].
    apply N.Div0.div_lt_upper_bound; lia. }
  destruct ((0xD800 <=? ch) && (ch <=? 0xDFFF)); [reflexivity|].
  destruct (N.ltb_spec ch 0x10000); destruct (N.leb_spec ch 0xFFFF); try lia.
  { rewrite lor_lead3, !lor_continuation; [reflexivity|assumption|assumption|].
    apply N.Div0.div_lt_upper_bound; lia. }
  rewrite lor_lead4, !lor_continuation;
    [reflexivity|assumption|assumption|assumption|].
  apply N.Div0.div_lt_upper_bound; lia.
Qed.

Lemma utf8_reference_range (ch : codepoint) :
  ch <= 0x10FFFF ->
  match RFC3629.utf8_reference ch with
  | Some bs => Forall (fun b => b < 256) bs
  | None => True
  end.
Proof.
  intros Hmax. unfold RFC3629.utf8_reference.
  assert (ch mod 64 < 64) by (apply N.mod_lt; lia).
  assert ((ch / 64) mod 64 < 64) by (apply N.mod_lt; lia).
  assert ((ch / 4096) mod 64 < 64) by (apply N.mod_lt; lia).
  destruct (N.leb_spec ch 0x7F).
  { repeat (apply Forall_cons; [lia|]); apply Forall_nil. }
  destruct (N.leb_spec ch 0x7FF).
  { assert (ch / 64 < 32) by (apply N.Div0.div_lt_upper_bound; lia).
    repeat (apply Forall_cons; [lia|]); apply Forall_nil. }
  destruct ((0xD800 <=? ch) && (ch <=? 0xDFFF)); [exact I|].
  destruct (N.leb_spec ch 0xFFFF).
  { assert (ch / 4096 < 16) by (apply N.Div0.div_lt_upper_bound; lia).
    repeat (apply Forall_cons; [lia|]); apply Forall_nil. }
  assert (ch / 262144 < 8) by (apply N.Div0.div_lt_upper_bound; lia).
  repeat (apply Forall_cons; [lia|]); apply Forall_nil.
Qed.

Lemma utf8_char_none (ch : codepoint) :
  utf8_char ch = None <-> is_surrogate ch = true.
Proof.
  unfold utf8_char, is_surrogate.
  destruct (N.ltb_spec ch 0x80).
  { split; [discriminate|].
    destruct (N.leb_spec 0xD800 ch); [lia|discriminate]. }
  destruct (N.ltb_spec ch 0x800).
  { split; [discriminate|].
    destruct (N.leb_spec 0xD800 ch); [lia|discriminate]. }
  destruct ((0xD800 <=? ch) && (ch <=? 0xDFFF)); [tauto|].
  destruct (ch <? 0x10000); split; discriminate.
Qed.

End Utf8.

Section Encode.
Local Open Scope N_scope.

Lemma byte_of_char (a : ascii) : Byte.to_N (byte_of_ascii a) = N_of_ascii a.
Proof.
  apply Byte.to_of_N. symmetry. apply byte_of_ascii_via_N.
Qed.

Lemma bytes_of_string_lit (s : string) : bytes_of_string s = lit s.
Proof.
  unfold bytes_of_string, lit, list_byte_of_string.
  rewrite map_map. apply map_ext. exact byte_of_char.
Qed.

(** ASCII text is its own encoding. *)
Lemma utf8_encode_ascii (s : str) (pos : nat) :
  Forall (fun ch => ch < 0x80) s -> utf8_encode pos s = Ok s.
Proof.
  intros H. revert pos.
  induction H as [|ch s Hch Hs IH]; intros pos; [reflexivity|].
  cbn [utf8_encode]. unfold utf8_char.
  apply N.ltb_lt in Hch. rewrite Hch, IH. reflexivity.
Qed.

(** The only exception of the encoder is the one for a surrogate. *)
Lemma utf8_encode_raise (s : str) (pos : nat) (e : exn) :
  utf8_encode pos s = Raise e ->
  exists (at_pos : nat) (ch : codepoint),
    e = UnicodeEncodeError at_pos ch /\ is_surrogate ch = true.
Proof.
  revert pos. induction s as [|ch s IH]; intros pos; cbn [utf8_encode].
  - discriminate.
  - destruct (utf8_char ch) as [b|] eqn:Hch.
    + destruct (utf8_encode (S pos) s) as [bs|e'] eqn:Hrest; [discriminate|].
      intros [= <-]. exact (IH (S pos) Hrest).
    + intros [= <-]. exists pos, ch. split; [reflexivity|].
      apply utf8_char_none. exact Hch.
Qed.

(** A string can be encoded exactly when it holds no surrogate. *)
Lemma utf8_encode_ok (s : str) (pos : nat) :
  (exists bs, utf8_encode pos s = Ok bs) <->
  Forall (fun ch => is_surrogate ch = false) s.
Proof.
  revert pos. induction s as [|ch s IH]; intros pos; cbn [utf8_encode].
  - split; [constructor | eexists; reflexivity].
  - destruct (utf8_char ch) as [b|] eqn:Hch.
    + assert (Hns : is_surrogate ch = false).
      { destruct (is_surrogate ch) eqn:Hsur; [|reflexivity].
        apply utf8_char_none in Hsur. congruence. }
      split.
      * intros [bs Hbs]. constructor; [exact Hns|].
        apply (IH (S pos)).
        destruct (utf8_encode (S pos) s) as [bs'|e];
          [eexists; reflexivity|discriminate].
      * intros H. inversion H as [|? ? _ Hs]; subst.
        apply (IH (S pos)) in Hs. destruct Hs as [bs' Hbs'].
        rewrite Hbs'. eexists; reflexivity.
    + apply utf8_char_none in Hch. split.
      * intros [bs Hbs]. discriminate.
      * intros H. inversion H; subst. congruence.
Qed.

(** On the strings Python can hold, the encoder and the reference agree,
    on the bytes and on which strings have none. *)
Lemma utf8_encode_reference (s : str) (pos : nat) :
  RFC3629.valid_str s ->
  match utf8_encode pos s with
  | Ok bs => RFC3629.utf8_string s = Some bs
  | Raise _ => RFC3629.utf8_string s = None
  end.
Proof.
  intros H. revert pos.
  induction H as [|ch s Hch Hs IH]; intros pos;
    cbn [utf8_encode RFC3629.utf8_string]; [reflexivity|].
  rewrite <- (utf8_char_reference ch Hch).
  destruct (utf8_char ch) as [b|]; [|reflexivity].
  specialize (IH (S pos)).
  destruct (utf8_encode (S pos) s) as [bs|e]; rewrite IH; reflexivity.
Qed.

Lemma encode_reference (s : str) (bs : bytes) :
  RFC3629.valid_str s ->
  (encode s = Ok bs <-> RFC3629.utf8_string s = Some bs).
Proof.
  intros H. pose proof (utf8_encode_reference s 0 H) as Hr.
  unfold encode. destruct (utf8_encode 0 s) as [bs'|e]; rewrite Hr.
  - split; intros [= ->]; reflexivity.
  - split; discriminate.
Qed.

(** Every byte of an encoding is an 8-bit value. *)
Lemma utf8_encode_range (s : str) (pos : nat) (bs : bytes) :
  RFC3629.valid_str s ->
  utf8_encode pos s = Ok bs ->
  Forall (fun b => b < 256) bs.
Proof.
  intros H. revert pos bs.
  induction H as [|ch s Hch Hs IH]; intros pos bs; cbn [utf8_encode].
  - intros [= <-]. constructor.
  - pose proof (utf8_reference_range ch Hch) as Hr.
    rewrite <- utf8_char_reference in Hr by exact Hch.
    destruct (utf8_char ch) as [b|]; [|discriminate].
    destruct (utf8_encode (S pos) s) as [bs'|e] eqn:Hrest; [|discriminate].
    intros [= <-]. apply Forall_app. split; [exact Hr|].
    exact (IH (S pos) bs' Hrest).
Qed.

Lemma encode_lit (s : string) :
  Forall (fun ch => ch < 0x80) (lit s) ->
  encode (lit s) = Ok (bytes_of_string s).
Proof.
  intros H. unfold encode. rewrite bytes_of_string_lit.
  apply utf8_encode_ascii. exact H.
Qed.

End Encode.

(** ** The script, run from the initial state *)

Section Script.
Variable E : env.

(** Line 7 never raises: the index is guarded by the length test. *)
Lemma source_selected (argv : list str) (w : world) :
  source argv w = (Ok (selected argv), w).
Proof.
  unfold source.
  destruct argv as [|script_name [|a rest]]; reflexivity.
Qed.

(** The three ways a run can go: the string cannot be encoded, the
    command cannot be launched, or the child runs to its end. *)
Lemma main_spec (argv : list str) :
  main E argv =
  match encode (selected argv) with
  | Raise e =>
      {| events := [EvExit 1]; uncaught := Some e; exit_status := 1;
         stdin_received := [] |}
  | Ok payload =>
      match os_spawn E command with
      | SpawnFailed e =>
          {| events := [EvSpawn command (SpawnFailed e); EvExit 1];
             uncaught := Some (OSError e (lit "node"));
             exit_status := 1;
             stdin_received := [] |}
      | ForkFailed e =>
          {| events := [EvSpawn command (ForkFailed e); EvExit 1];
             uncaught := Some (OSErrorPlain e);
             exit_status := 1;
             stdin_received := [] |}
      | Spawned =>
          {| events := EvSpawn command Spawned :: write_events payload ++
                       [EvClose; EvWait (child_run E command payload); EvExit 0];
             uncaught := None;
             exit_status := 0;
             stdin_received :=
               firstn (stdin_accepted (child_run E command payload)) payload |}
      end
  end.
Proof.
  unfold main, script, bind, lift.
  rewrite source_selected.
  destruct (encode (selected argv)) as [payload|e]; [|reflexivity].
  unfold run, popen, bind, emit.
  destruct (os_spawn E command) as [|e|e] eqn:Hs;
    cbn [trace offered pipe stdin_open child_status initial app];
    [|reflexivity|reflexivity].
  destruct payload as [|b bs].
  - cbn. rewrite firstn_nil. reflexivity.
  - unfold finally, try_except, communicate, stdin_write, ignore_broken_pipe,
      stdin_write_bytes, stdin_close, popen_exit, wait, poll, bind, emit,
      try_except, finally, ret, raise.
    cbn [popen_stdin popen_args trace offered pipe stdin_open child_status
         app fst snd].
    destruct (List.length (b :: bs)
              <=? stdin_accepted (child_run E command (b :: bs)))%nat;
      reflexivity.
Qed.

(** What line 8 leaves out: with [check=True] the same call raises as
    soon as the child's status is not 0. *)
Lemma run_check_raises (payload : bytes) :
  os_spawn E command = Spawned ->
  returncode (child_run E command payload) <> 0%Z ->
  fst (run E command (Some payload) true initial)
  = Raise (CalledProcessError (returncode (child_run E command payload))
             command).
Proof.
  intros Hs Hrc. unfold run, popen, bind, emit. rewrite Hs.
  cbn [trace offered pipe stdin_open child_status initial app].
  apply Z.eqb_neq in Hrc.
  unfold finally, try_except, communicate, stdin_write, ignore_broken_pipe,
    stdin_write_bytes, stdin_close, popen_exit, wait, poll, bind, emit,
    try_except, finally, ret, raise.
  destruct payload as [|b bs].
  - cbn. rewrite Hrc. reflexivity.
  - cbn [popen_stdin popen_args trace offered pipe stdin_open child_status
         app fst snd].
    destruct (List.length (b :: bs)
              <=? stdin_accepted (child_run E command (b :: bs)))%nat;
      cbn; rewrite Hrc; reflexivity.
Qed.

Lemma stdin_sent_write_events (payload : bytes) (tr : list event) :
  stdin_sent (write_events payload ++ tr) = payload ++ stdin_sent tr.
Proof. destruct payload; reflexivity. Qed.

Lemma child_exits_write_events (payload : bytes) (tr : list event) :
  child_exits (write_events payload ++ tr) = child_exits tr.
Proof. destruct payload; reflexivity. Qed.

Lemma spawn_attempts_write_events (payload : bytes) (tr : list event) :
  spawn_attempts (write_events payload ++ tr) = spawn_attempts tr.
Proof. destruct payload; reflexivity. Qed.

Lemma children_started_write_events (payload : bytes) (tr : list event) :
  children_started (write_events payload ++ tr) = children_started tr.
Proof. destruct payload; reflexivity. Qed.

Lemma stdin_sent_started (argv : list str) (payload : bytes) :
  encode (selected argv) = Ok payload ->
  os_spawn E command = Spawned ->
  stdin_sent (events (main E argv)) = payload.
Proof.
  intros He Hs. rewrite main_spec, He, Hs. cbn [events stdin_sent].
  rewrite stdin_sent_write_events. cbn [stdin_sent]. apply app_nil_r.
Qed.

Lemma child_exits_main (argv : list str) :
  child_exits (events (main E argv)) =
  match encode (selected argv), os_spawn E command with
  | Ok payload, Spawned => [returncode (child_run E command payload)]
  | _, _ => []
  end.
Proof.
  rewrite main_spec.
  destruct (encode (selected argv)) as [payload|e]; [|reflexivity].
  destruct (os_spawn E command); [|reflexivity|reflexivity].
  cbn [events child_exits]. rewrite child_exits_write_events. reflexivity.
Qed.

Lemma spawn_attempts_main (argv : list str) :
  spawn_attempts (events (main E argv)) =
  match encode (selected argv) with
  | Ok _ => [command]
  | Raise _ => []
  end.
Proof.
  rewrite main_spec.
  destruct (encode (selected argv)) as [payload|e]; [|reflexivity].
  destruct (os_spawn E command); [|reflexivity|reflexivity].
  cbn [events spawn_attempts]. rewrite spawn_attempts_write_events. reflexivity.
Qed.

Lemma children_started_main (argv : list str) :
  children_started (events (main E argv)) =
  match encode (selected argv), os_spawn E command with
  | Ok _, Spawned => [command]
  | _, _ => []
  end.
Proof.
  rewrite main_spec.
  destruct (encode (selected argv)) as [payload|e]; [|reflexivity].
  destruct (os_spawn E command); [|reflexivity|reflexivity].
  cbn [events children_started]. rewrite children_started_write_events.
  reflexivity.
Qed.

End Script.

(** ** What a run sends, starts and reports *)

(** C1: with at least one command-line argument, the bytes written to the
    child's standard input are exactly the encoding of the first argument,
    nothing before and nothing after; that encoding is the UTF-8 of
    RFC 3629, and for the argument ["hello"] it is the five bytes of
    [hello]. *)
Theorem C1_argument_passthrough :
  forall (E : env) (script_name a : str) (rest : list str) (payload : bytes),
    encode a = Ok payload ->
    os_spawn E command = Spawned ->
    stdin_sent (events (main E (script_name :: a :: rest))) = payload
    /\ (RFC3629.valid_str a -> RFC3629.utf8_string a = Some payload)
    /\ (a = lit "hello" -> payload = bytes_of_string "hello").
Proof.
  intros E script_name a rest payload He Hs. split; [|split].
  - apply stdin_sent_started; assumption.
  - intros Hvalid. apply encode_reference; assumption.
  - intros ->. cbv in He. injection He as <-. reflexivity.
Qed.

Lemma C1_witness :
  encode (lit "hello") = Ok (bytes_of_string "hello") /\
  os_spawn (env_node 0) command = Spawned /\
  stdin_sent (events (main (env_node 0) [prog; lit "hello"]))
  = bytes_of_string "hello".
Proof.
  split; [reflexivity|]. split; [reflexivity|].
  exact (proj1 (C1_argument_passthrough (env_node 0) prog (lit "hello") []
                  (bytes_of_string "hello") eq_refl eq_refl)).
Defined.

(** C2: with no command-line argument, the bytes written to the child's
    standard input are the two bytes of ["42"]. *)
Theorem C2_default_payload :
  forall (E : env) (argv : list str),
    (List.length argv <= 1)%nat ->
    os_spawn E command = Spawned ->
    stdin_sent (events (main E argv)) = bytes_of_string "42".
Proof.
  intros E argv Hlen Hs.
  apply stdin_sent_started; [|exact Hs].
  destruct argv as [|script_name [|a rest]]; [reflexivity|reflexivity|].
  cbn [List.length] in Hlen. lia.
Qed.

Lemma C2_witness :
  (List.length [prog] <= 1)%nat /\
  os_spawn (env_node 0) command = Spawned /\
  stdin_sent (events (main (env_node 0) [prog])) = [52%N; 50%N].
Proof.
  split; [cbn; lia|]. split; [reflexivity|].
  apply (C2_default_payload (env_node 0) [prog]); [cbn; lia|reflexivity].
Defined.

(** C3 does not hold as worded: here the child starts and exits with
    status 1, and the invoker ends with status 0 and no exception. *)
Lemma C3_counterexample :
  child_failed (main (env_node 1) [prog]) /\
  ~ invoker_failed (main (env_node 1) [prog]).
Proof.
  split.
  - exists 1%Z. split; [left; reflexivity|discriminate].
  - intros [H|H]; apply H; reflexivity.
Qed.

(** C3, amended: when the child starts and exits with a non-zero status,
    the invoker still ends normally, with no exception and exit status 0;
    [run] is called without [check], so the status is dropped. *)
Theorem C3_child_failure_dropped :
  forall (E : env) (argv : list str),
    child_failed (main E argv) ->
    uncaught (main E argv) = None /\ exit_status (main E argv) = 0%Z.
Proof.
  intros E argv [rc [Hin Hrc]].
  rewrite child_exits_main in Hin. rewrite main_spec.
  destruct (encode (selected argv)) as [payload|e]; [|destruct Hin].
  destruct (os_spawn E command); [|destruct Hin|destruct Hin].
  split; reflexivity.
Qed.

Lemma C3_witness :
  child_failed (main (env_node 1) [prog]) /\
  uncaught (main (env_node 1) [prog]) = None /\
  exit_status (main (env_node 1) [prog]) = 0%Z.
Proof.
  assert (H : child_failed (main (env_node 1) [prog])).
  { exists 1%Z. split; [left; reflexivity|discriminate]. }
  split; [exact H|].
  exact (C3_child_failure_dropped (env_node 1) [prog] H).
Defined.

(** C4: what the child does (its exit status, what it prints) has no
    effect on the invoker: two runs that differ only in the child's
    behaviour end the same way and make the same calls, and a run in
    which a child was waited for ends with status 0 whatever the child's
    status was. *)
Theorem C4_child_result_ignored :
  forall (spawn : list str -> spawn_result)
         (child1 child2 : list str -> bytes -> child_result)
         (argv : list str),
    uncaught (main {| os_spawn := spawn; child_run := child1 |} argv)
    = uncaught (main {| os_spawn := spawn; child_run := child2 |} argv)
    /\
    exit_status (main {| os_spawn := spawn; child_run := child1 |} argv)
    = exit_status (main {| os_spawn := spawn; child_run := child2 |} argv)
    /\
    map forget_child
        (events (main {| os_spawn := spawn; child_run := child1 |} argv))
    = map forget_child
        (events (main {| os_spawn := spawn; child_run := child2 |} argv))
    /\
    (child_exits
       (events (main {| os_spawn := spawn; child_run := child1 |} argv)) = []
     \/ exit_status (main {| os_spawn := spawn; child_run := child1 |} argv)
        = 0%Z).
Proof.
  intros spawn child1 child2 argv.
  rewrite child_exits_main, !main_spec. cbn [os_spawn child_run].
  destruct (encode (selected argv)) as [payload|e].
  - destruct (spawn command).
    + cbn [uncaught exit_status events map forget_child].
      rewrite !map_app. cbn [map forget_child]. auto.
    + auto.
    + auto.
  - auto.
Qed.

(** C5: when the executable cannot be found, the run ends with an
    uncaught exception and exit status 1, and no child was started; the
    exception is the launch error, unless the argument could not even be
    encoded. *)
Theorem C5_missing_executable_fails :
  forall (E : env) (argv : list str),
    os_spawn E command = SpawnFailed FileNotFoundError ->
    exit_status (main E argv) = 1%Z /\
    children_started (events (main E argv)) = [] /\
    (uncaught (main E argv) = Some (OSError FileNotFoundError (lit "node"))
     \/ exists (pos : nat) (ch : codepoint),
          uncaught (main E argv) = Some (UnicodeEncodeError pos ch)).
Proof.
  intros E argv Hs. rewrite children_started_main, main_spec, Hs.
  destruct (encode (selected argv)) as [payload|e] eqn:He.
  - repeat split. left. reflexivity.
  - repeat split. right.
    destruct (utf8_encode_raise _ _ e He) as [pos [ch [-> _]]].
    exists pos, ch. reflexivity.
Qed.

Lemma C5_witness :
  os_spawn env_no_node command = SpawnFailed FileNotFoundError /\
  exit_status (main env_no_node [prog; lit "hello"]) = 1%Z /\
  uncaught (main env_no_node [prog; lit "hello"])
  = Some (OSError FileNotFoundError (lit "node")).
Proof.
  split; [reflexivity|].
  destruct (C5_missing_executable_fails env_no_node [prog; lit "hello"] eq_refl)
    as [Hst _].
  split; [exact Hst|reflexivity].
Defined.

(** C6 does not hold as worded, in two ways: an argument that has no
    UTF-8 encoding ends the run before any launch, and a missing
    executable makes the one launch fail; in both runs no child process
    is started. *)
Lemma C6_counterexample :
  ~ starts_one_child (main (env_node 0) [prog; undecodable]) /\
  ~ starts_one_child (main env_no_node [prog]).
Proof.
  split; intros H; discriminate H.
Qed.

(** C6, amended: a run launches the command once if the selected string
    can be encoded, and not at all otherwise; so at most one child process
    is started, and exactly one when the string can be encoded and the
    operating system can launch the command.  Whether an argument is
    given plays no part. *)
Theorem C6_one_launch :
  forall (E : env) (argv : list str),
    spawn_attempts (events (main E argv))
    = match encode (selected argv) with
      | Ok _ => [command]
      | Raise _ => []
      end
    /\
    children_started (events (main E argv))
    = match encode (selected argv), os_spawn E command with
      | Ok _, Spawned => [command]
      | _, _ => []
      end
    /\
    (List.length (children_started (events (main E argv))) <= 1)%nat.
Proof.
  intros E argv. rewrite spawn_attempts_main, children_started_main.
  repeat split.
  destruct (encode (selected argv)); [destruct (os_spawn E command)|];
    cbn; lia.
Qed.

(** C7: whatever the arguments and the environment, the command of every
    launch is [node dist/main.js]; any two launches, of the same run or
    of two runs, are of the same command. *)
Theorem C7_fixed_command :
  forall (E1 E2 : env) (argv1 argv2 : list str) (c1 c2 : list str),
    In c1 (spawn_attempts (events (main E1 argv1))) ->
    In c2 (spawn_attempts (events (main E2 argv2))) ->
    c1 = c2 /\ c1 = [lit "node"; lit "dist/main.js"].
Proof.
  intros E1 E2 argv1 argv2 c1 c2.
  rewrite !spawn_attempts_main.
  destruct (encode (selected argv1)); [|intros []].
  destruct (encode (selected argv2)); [|intros _ []].
  intros [<-|[]] [<-|[]]. split; reflexivity.
Qed.

Lemma C7_witness :
  In command (spawn_attempts (events (main (env_node 0) [prog]))) /\
  In command
     (spawn_attempts (events (main env_no_node [prog; lit "rm -rf"]))) /\
  command = [lit "node"; lit "dist/main.js"].
Proof.
  assert (H1 : In command (spawn_attempts (events (main (env_node 0) [prog]))))
    by (left; reflexivity).
  assert (H2 : In command
                 (spawn_attempts
                    (events (main env_no_node [prog; lit "rm -rf"]))))
    by (left; reflexivity).
  split; [exact H1|]. split; [exact H2|].
  exact (proj2 (C7_fixed_command _ _ _ _ _ _ H1 H2)).
Defined.

(** C8 does not hold as worded: the argument is 100000 characters, the
    child exits without reading; the pipe takes 65536 bytes and breaks,
    the error is ignored, and the run goes on to close, wait and end with
    status 0.  The payload was not fully written. *)
Lemma C8_counterexample :
  encode (selected [prog; long_argument]) = Ok long_argument /\
  children_started
    (events (main (env_node_not_reading 0) [prog; long_argument]))
  = [command] /\
  exit_status (main (env_node_not_reading 0) [prog; long_argument]) = 0%Z /\
  List.length
    (stdin_received (main (env_node_not_reading 0) [prog; long_argument]))
  = N.to_nat 65536 /\
  stdin_received (main (env_node_not_reading 0) [prog; long_argument])
  <> long_argument.
Proof.
  assert (He : encode (selected [prog; long_argument]) = Ok long_argument).
  { change (selected [prog; long_argument]) with long_argument.
    apply utf8_encode_ascii. unfold long_argument.
    apply Forall_forall. intros ch Hin. apply repeat_spec in Hin.
    subst ch. reflexivity. }
  assert (Hs : os_spawn (env_node_not_reading 0) command = Spawned)
    by reflexivity.
  assert (Hlen : List.length
                   (stdin_received
                      (main (env_node_not_reading 0) [prog; long_argument]))
                 = N.to_nat 65536).
  { rewrite main_spec, He, Hs. cbn [stdin_received].
    change (stdin_accepted
              (child_run (env_node_not_reading 0) command long_argument))
      with (N.to_nat 65536).
    rewrite length_firstn. unfold long_argument. rewrite repeat_length. lia. }
  split; [exact He|]. split.
  { rewrite children_started_main, He, Hs. reflexivity. }
  split.
  { rewrite main_spec, He, Hs. reflexivity. }
  split; [exact Hlen|].
  intros Heq. rewrite Heq in Hlen. unfold long_argument in Hlen.
  rewrite repeat_length in Hlen. lia.
Qed.

(** C8, amended: in a run that starts the child, the invoker hands the
    whole payload to one write on the child's standard input (none when
    the payload is empty), then closes that stream, then waits until the
    child has exited, and only then exits itself.  What goes into the
    pipe is the part of the payload the child lets in, a broken pipe
    being ignored; it is the whole payload when the child takes it
    all. *)
Theorem C8_write_close_wait_exit :
  forall (E : env) (argv : list str) (payload : bytes),
    encode (selected argv) = Ok payload ->
    os_spawn E command = Spawned ->
    events (main E argv)
    = [EvSpawn command Spawned] ++ write_events payload ++
      [EvClose; EvWait (child_run E command payload); EvExit 0]
    /\ stdin_sent (write_events payload) = payload
    /\ stdin_received (main E argv)
       = firstn (stdin_accepted (child_run E command payload)) payload
    /\ ((List.length payload
         <= stdin_accepted (child_run E command payload))%nat ->
        stdin_received (main E argv) = payload).
Proof.
  intros E argv payload He Hs. rewrite main_spec, He, Hs.
  cbn [events stdin_received]. split; [reflexivity|]. split; [|split].
  - destruct payload; [reflexivity|]. cbn [write_events stdin_sent].
    apply app_nil_r.
  - reflexivity.
  - intros Hall. apply firstn_all2. exact Hall.
Qed.

Lemma C8_witness :
  encode (selected [prog; lit "7"]) = Ok [55%N] /\
  os_spawn (env_node 3) command = Spawned /\
  events (main (env_node 3) [prog; lit "7"])
  = [EvSpawn command Spawned; EvWrite [55%N]; EvClose;
     EvWait (child_exiting 3 command [55%N]); EvExit 0] /\
  stdin_received (main (env_node 3) [prog; lit "7"]) = [55%N].
Proof.
  split; [reflexivity|]. split; [reflexivity|].
  destruct (C8_write_close_wait_exit (env_node 3) [prog; lit "7"] [55%N]
              eq_refl eq_refl) as [Hev [_ [_ Hall]]].
  split; [exact Hev|]. apply Hall. cbn. lia.
Defined.

(** C9: an argument that is present but empty is used as it is: nothing
    is written to the child, whose standard input is closed empty; the
    default ["42"] is not substituted. *)
Theorem C9_empty_argument :
  forall (E : env) (script_name : str) (rest : list str),
    os_spawn E command = Spawned ->
    stdin_sent (events (main E (script_name :: [] :: rest))) = [] /\
    stdin_sent (events (main E (script_name :: [] :: rest)))
    <> bytes_of_string "42" /\
    events (main E (script_name :: [] :: rest))
    = [EvSpawn command Spawned; EvClose;
       EvWait (child_run E command []); EvExit 0].
Proof.
  intros E script_name rest Hs.
  rewrite main_spec, Hs. cbn. repeat split. discriminate.
Qed.

Lemma C9_witness :
  os_spawn (env_node 0) command = Spawned /\
  stdin_sent (events (main (env_node 0) [prog; []])) = [].
Proof.
  split; [reflexivity|].
  exact (proj1 (C9_empty_argument (env_node 0) prog [] eq_refl)).
Defined.

(** C10: arguments after the first are ignored: the whole run (calls,
    payload, exception, exit status) is that of the invocation with the
    first argument alone. *)
Theorem C10_extra_arguments_ignored :
  forall (E : env) (script_name a b : str) (rest : list str),
    main E (script_name :: a :: b :: rest) = main E [script_name; a].
Proof.
  intros E script_name a b rest. rewrite !main_spec. reflexivity.
Qed.

(** ** Reading the payload back *)

Section RoundTrip.
Import Decoder.
Local Open Scope N_scope.

Lemma utf8_decode_step (ch : codepoint) (rest : bytes) :
  ch <= 0x10FFFF ->
  match RFC3629.utf8_reference ch with
  | Some b => utf8_decode (b ++ rest) = option_map (cons ch) (utf8_decode rest)
  | None => True
  end.
Proof.
  intros Hmax. unfold RFC3629.utf8_reference.
  pose proof (N.div_mod ch 64 ltac:(lia)) as D0.
  pose proof (N.div_mod (ch / 64) 64 ltac:(lia)) as D1.
  pose proof (N.div_mod (ch / 64 / 64) 64 ltac:(lia)) as D2.
  rewrite !N.Div0.div_div in D2. rewrite N.Div0.div_div in D1.
  change (64 * 64) with 4096 in *. change (4096 * 64) with 262144 in *.
  assert (R0 : ch mod 64 < 64) by (apply N.mod_lt; lia).
  assert (R1 : (ch / 64) mod 64 < 64) by (apply N.mod_lt; lia).
  assert (R2 : (ch / 4096) mod 64 < 64) by (apply N.mod_lt; lia).
  assert (Q : ch / 262144 < 5) by (apply N.Div0.div_lt_upper_bound; lia).
  set (m0 := ch mod 64) in *. set (m1 := (ch / 64) mod 64) in *.
  set (m2 := (ch / 4096) mod 64) in *.
  set (q1 := ch / 64) in *. set (q2 := ch / 4096) in *.
  set (q3 := ch / 262144) in *.
  destruct (N.leb_spec ch 0x7F).
  { cbn [app utf8_decode].
    destruct (N.ltb_spec ch 0x80); [reflexivity|lia]. }
  destruct (N.leb_spec ch 0x7FF).
  { cbn [app utf8_decode]. unfold is_continuation.
    assert (V : value2 (192 + q1) (128 + m0) = ch) by (unfold value2; lia).
    rewrite V.
    destruct (N.ltb_spec (192 + q1) 0x80); [lia|].
    destruct (N.ltb_spec (192 + q1) 0xC0); [lia|].
    destruct (N.leb_spec 0x80 (128 + m0)); [|lia].
    destruct (N.ltb_spec (128 + m0) 0xC0); [|lia].
    cbn [andb negb].
    destruct (N.ltb_spec (192 + q1) 0xE0); [|lia].
    destruct (N.ltb_spec ch 0x80); [lia|].
    reflexivity. }
  unfold is_surrogate.
  destruct (N.leb_spec 0xD800 ch) as [Hlo|Hlo];
    (destruct (N.leb_spec ch 0xDFFF) as [Hhi|Hhi]);
    cbn [andb]; try exact I;
    (destruct (N.leb_spec ch 0xFFFF);
     [ cbn [app utf8_decode]; unfold is_continuation, is_surrogate;
       assert (V : value3 (224 + q2) (128 + m1) (128 + m0) = ch)
         by (unfold value3; lia);
       rewrite V;
       destruct (N.ltb_spec (224 + q2) 0x80); [lia|];
       destruct (N.ltb_spec (224 + q2) 0xC0); [lia|];
       destruct (N.leb_spec 0x80 (128 + m1)); [|lia];
       destruct (N.ltb_spec (128 + m1) 0xC0); [|lia];
       cbn [andb negb];
       destruct (N.ltb_spec (224 + q2) 0xE0); [lia|];
       destruct (N.leb_spec 0x80 (128 + m0)); [|lia];
       destruct (N.ltb_spec (128 + m0) 0xC0); [|lia];
       cbn [andb negb];
       destruct (N.ltb_spec (224 + q2) 0xF0); [|lia];
       destruct (N.ltb_spec ch 0x800); [lia|];
       destruct (N.leb_spec 0xD800 ch); destruct (N.leb_spec ch 0xDFFF);
       try lia; reflexivity
     | cbn [app utf8_decode]; unfold is_continuation;
       assert (V : value4 (240 + q3) (128 + m2) (128 + m1) (128 + m0) = ch)
         by (unfold value4; lia);
       rewrite V;
       destruct (N.ltb_spec (240 + q3) 0x80); [lia|];
       destruct (N.ltb_spec (240 + q3) 0xC0); [lia|];
       destruct (N.leb_spec 0x80 (128 + m2)); [|lia];
       destruct (N.ltb_spec (128 + m2) 0xC0); [|lia];
       cbn [andb negb];
       destruct (N.ltb_spec (240 + q3) 0xE0); [lia|];
       destruct (N.leb_spec 0x80 (128 + m1)); [|lia];
       destruct (N.ltb_spec (128 + m1) 0xC0); [|lia];
       cbn [andb negb];
       destruct (N.ltb_spec (240 + q3) 0xF0); [lia|];
       destruct (N.leb_spec 0x80 (128 + m0)); [|lia];
       destruct (N.ltb_spec (128 + m0) 0xC0); [|lia];
       cbn [andb negb];
       destruct (N.leb_spec 0xF8 (240 + q3)); [lia|];
       destruct (N.ltb_spec ch 0x10000); [lia|];
       destruct (N.ltb_spec 0x10FFFF ch); [lia|];
       reflexivity ]).
Qed.

Lemma split64 (q m : N) :
  m < 64 -> (q * 64 + m) / 64 = q /\ (q * 64 + m) mod 64 = m.
Proof.
  intros Hm. split; symmetry.
  - apply (N.div_unique _ 64 q m); lia.
  - apply (N.mod_unique _ 64 q m); lia.
Qed.

Lemma continuation_range (b : N) :
  is_continuation b = true -> 0x80 <= b < 0xC0.
Proof.
  unfold is_continuation. intros H. apply andb_prop in H. destruct H as [H1 H2].
  apply N.leb_le in H1. apply N.ltb_lt in H2. lia.
Qed.

(** A sequence the decoder accepts is the encoding of its value. *)
Lemma value2_reference (b0 b1 : N) :
  0xC0 <= b0 < 0xE0 -> is_continuation b1 = true ->
  0x80 <= value2 b0 b1 ->
  value2 b0 b1 <= 0x10FFFF /\
  RFC3629.utf8_reference (value2 b0 b1) = Some [b0; b1].
Proof.
  intros H0 C1 Hmin. apply continuation_range in C1.
  unfold value2 in *.
  set (q := b0 - 0xC0) in *. set (m := b1 - 0x80) in *.
  assert (Hq : q < 32) by (subst q; lia).
  assert (Hm : m < 64) by (subst m; lia).
  assert (Eb0 : b0 = 192 + q) by (subst q; lia).
  assert (Eb1 : b1 = 128 + m) by (subst m; lia).
  destruct (split64 q m Hm) as [D M].
  split; [lia|]. unfold RFC3629.utf8_reference.
  destruct (N.leb_spec (q * 64 + m) 0x7F); [lia|].
  destruct (N.leb_spec (q * 64 + m) 0x7FF); [|lia].
  rewrite D, M, Eb0, Eb1. reflexivity.
Qed.

Lemma value3_reference (b0 b1 b2 : N) :
  0xE0 <= b0 < 0xF0 ->
  is_continuation b1 = true -> is_continuation b2 = true ->
  0x800 <= value3 b0 b1 b2 -> is_surrogate (value3 b0 b1 b2) = false ->
  value3 b0 b1 b2 <= 0x10FFFF /\
  RFC3629.utf8_reference (value3 b0 b1 b2) = Some [b0; b1; b2].
Proof.
  intros H0 C1 C2 Hmin Hs.
  apply continuation_range in C1. apply continuation_range in C2.
  unfold is_surrogate in Hs. unfold value3 in *.
  set (q := b0 - 0xE0) in *. set (m1 := b1 - 0x80) in *.
  set (m0 := b2 - 0x80) in *.
  assert (Hq : q < 16) by (subst q; lia).
  assert (Hm1 : m1 < 64) by (subst m1; lia).
  assert (Hm0 : m0 < 64) by (subst m0; lia).
  assert (Eb0 : b0 = 224 + q) by (subst q; lia).
  assert (Eb1 : b1 = 128 + m1) by (subst m1; lia).
  assert (Eb2 : b2 = 128 + m0) by (subst m0; lia).
  set (ch := q * 4096 + m1 * 64 + m0) in *.
  assert (D0 : ch / 64 = q * 64 + m1 /\ ch mod 64 = m0).
  { replace ch with ((q * 64 + m1) * 64 + m0) by (subst ch; lia).
    apply split64. exact Hm0. }
  destruct D0 as [D0 M0].
  destruct (split64 q m1 Hm1) as [D1 M1].
  assert (D2 : ch / 4096 = q).
  { change 4096 with (64 * 64). rewrite <- N.Div0.div_div, D0. exact D1. }
  split; [lia|]. unfold RFC3629.utf8_reference.
  destruct (N.leb_spec ch 0x7F); [lia|].
  destruct (N.leb_spec ch 0x7FF); [lia|].
  rewrite Hs.
  destruct (N.leb_spec ch 0xFFFF); [|lia].
  rewrite D2, D0, M1, M0, Eb0, Eb1, Eb2. reflexivity.
Qed.

Lemma value4_reference (b0 b1 b2 b3 : N) :
  0xF0 <= b0 < 0xF8 ->
  is_continuation b1 = true -> is_continuation b2 = true ->
  is_continuation b3 = true ->
  0x10000 <= value4 b0 b1 b2 b3 <= 0x10FFFF ->
  RFC3629.utf8_reference (value4 b0 b1 b2 b3) = Some [b0; b1; b2; b3].
Proof.
  intros H0 C1 C2 C3 Hr.
  apply continuation_range in C1. apply continuation_range in C2.
  apply continuation_range in C3.
  unfold value4 in *.
  set (q := b0 - 0xF0) in *. set (m2 := b1 - 0x80) in *.
  set (m1 := b2 - 0x80) in *. set (m0 := b3 - 0x80) in *.
  assert (Hm2 : m2 < 64) by (subst m2; lia).
  assert (Hm1 : m1 < 64) by (subst m1; lia).
  assert (Hm0 : m0 < 64) by (subst m0; lia).
  assert (Eb0 : b0 = 240 + q) by (subst q; lia).
  assert (Eb1 : b1 = 128 + m2) by (subst m2; lia).
  assert (Eb2 : b2 = 128 + m1) by (subst m1; lia).
  assert (Eb3 : b3 = 128 + m0) by (subst m0; lia).
  set (ch := q * 262144 + m2 * 4096 + m1 * 64 + m0) in *.
  assert (D0 : ch / 64 = (q * 64 + m2) * 64 + m1 /\ ch mod 64 = m0).
  { replace ch with (((q * 64 + m2) * 64 + m1) * 64 + m0) by (subst ch; lia).
    apply split64. exact Hm0. }
  destruct D0 as [D0 M0].
  destruct (split64 (q * 64 + m2) m1 Hm1) as [D1 M1].
  destruct (split64 q m2 Hm2) as [D2 M2].
  assert (D4096 : ch / 4096 = q * 64 + m2).
  { change 4096 with (64 * 64). rewrite <- N.Div0.div_div, D0. exact D1. }
  assert (D262144 : ch / 262144 = q).
  { change 262144 with (4096 * 64). rewrite <- N.Div0.div_div, D4096.
    exact D2. }
  unfold RFC3629.utf8_reference.
  destruct (N.leb_spec ch 0x7F); [lia|].
  destruct (N.leb_spec ch 0x7FF); [lia|].
  destruct (N.leb_spec 0xD800 ch); [|lia].
  destruct (N.leb_spec ch 0xDFFF); [lia|]. cbn [andb].
  destruct (N.leb_spec ch 0xFFFF); [lia|].
  rewrite D262144, D4096, M2, D0, M1, M0, Eb0, Eb1, Eb2, Eb3. reflexivity.
Qed.

(** The decoder is strict: whatever it accepts is the encoding of what
    it returns, a string of valid code points. *)
Lemma utf8_decode_sound_upto (n : nat) :
  forall (bs : bytes) (s : str),
    (List.length bs <= n)%nat ->
    utf8_decode bs = Some s ->
    RFC3629.valid_str s /\ RFC3629.utf8_string s = Some bs.
Proof.
  induction n as [|n IH]; intros bs s Hlen.
  - destruct bs; [|cbn in Hlen; lia].
    intros [= <-]. split; [constructor|reflexivity].
  - destruct bs as [|b0 r0]; cbn [utf8_decode].
    { intros [= <-]. split; [constructor|reflexivity]. }
    cbn [List.length] in Hlen.
    destruct (N.ltb_spec b0 0x80) as [A0|A0].
    { destruct (utf8_decode r0) as [s'|] eqn:Hr; [|discriminate].
      intros [= <-]. destruct (IH r0 s' ltac:(lia) Hr) as [Hv Hu].
      split; [constructor; [lia|exact Hv]|].
      cbn [RFC3629.utf8_string]. unfold RFC3629.utf8_reference.
      destruct (N.leb_spec b0 0x7F); [|lia]. rewrite Hu. reflexivity. }
    destruct (N.ltb_spec b0 0xC0) as [A1|A1]; [discriminate|].
    destruct r0 as [|b1 r1]; [discriminate|]. cbn [List.length] in Hlen.
    destruct (is_continuation b1) eqn:C1; cbn [negb]; [|discriminate].
    destruct (N.ltb_spec b0 0xE0) as [A2|A2].
    { destruct (N.ltb_spec (value2 b0 b1) 0x80) as [V|V]; [discriminate|].
      destruct (utf8_decode r1) as [s'|] eqn:Hr; [|discriminate].
      intros [= <-]. destruct (IH r1 s' ltac:(lia) Hr) as [Hv Hu].
      destruct (value2_reference b0 b1 ltac:(lia) C1 V) as [Hmax Href].
      split; [constructor; assumption|].
      cbn [RFC3629.utf8_string]. rewrite Href, Hu. reflexivity. }
    destruct r1 as [|b2 r2]; [discriminate|]. cbn [List.length] in Hlen.
    destruct (is_continuation b2) eqn:C2; cbn [negb]; [|discriminate].
    destruct (N.ltb_spec b0 0xF0) as [A3|A3].
    { destruct (N.ltb_spec (value3 b0 b1 b2) 0x800) as [V|V];
        [discriminate|].
      destruct (is_surrogate (value3 b0 b1 b2)) eqn:Hs; cbn [orb];
        [discriminate|].
      destruct (utf8_decode r2) as [s'|] eqn:Hr; [|discriminate].
      intros [= <-]. destruct (IH r2 s' ltac:(lia) Hr) as [Hv Hu].
      destruct (value3_reference b0 b1 b2 ltac:(lia) C1 C2 V Hs)
        as [Hmax Href].
      split; [constructor; assumption|].
      cbn [RFC3629.utf8_string]. rewrite Href, Hu. reflexivity. }
    destruct r2 as [|b3 r3]; [discriminate|]. cbn [List.length] in Hlen.
    destruct (is_continuation b3) eqn:C3; cbn [negb]; [|discriminate].
    destruct (N.leb_spec 0xF8 b0) as [A4|A4]; [discriminate|].
    destruct (N.ltb_spec (value4 b0 b1 b2 b3) 0x10000) as [V|V];
      [discriminate|].
    destruct (N.ltb_spec 0x10FFFF (value4 b0 b1 b2 b3)) as [W|W];
      cbn [orb]; [discriminate|].
    destruct (utf8_decode r3) as [s'|] eqn:Hr; [|discriminate].
    intros [= <-]. destruct (IH r3 s' ltac:(lia) Hr) as [Hv Hu].
    pose proof (value4_reference b0 b1 b2 b3 ltac:(lia) C1 C2 C3 ltac:(lia))
      as Href.
    split; [constructor; assumption|].
    cbn [RFC3629.utf8_string]. rewrite Href, Hu. reflexivity.
Qed.

Lemma utf8_decode_sound (bs : bytes) (s : str) :
  utf8_decode bs = Some s ->
  RFC3629.valid_str s /\ encode s = Ok bs.
Proof.
  intros H.
  destruct (utf8_decode_sound_upto (List.length bs) bs s (le_n _) H)
    as [Hv Hu].
  split; [exact Hv|]. apply encode_reference; assumption.
Qed.

(** Ill-formed input is refused: an overlong form, an encoded surrogate,
    a value above U+10FFFF, a lead byte that is none, a truncated
    sequence. *)
Lemma utf8_decode_refuses :
  utf8_decode [0xC0; 0x80] = None /\
  utf8_decode [0xE0; 0x80; 0x80] = None /\
  utf8_decode [0xED; 0xA0; 0x80] = None /\
  utf8_decode [0xF4; 0x90; 0x80; 0x80] = None /\
  utf8_decode [0xF8; 0x88; 0x80; 0x80] = None /\
  utf8_decode [0x80] = None /\
  utf8_decode [0xE2; 0x82] = None.
Proof. repeat split; reflexivity. Qed.

(** Decoding undoes encoding, on every string Python can hold. *)
Lemma utf8_decode_encode (s : str) (pos : nat) (bs : bytes) :
  RFC3629.valid_str s ->
  utf8_encode pos s = Ok bs ->
  utf8_decode bs = Some s.
Proof.
  intros H. revert pos bs.
  induction H as [|ch s Hch Hs IH]; intros pos bs; cbn [utf8_encode].
  - intros [= <-]. reflexivity.
  - pose proof (utf8_decode_step ch) as Hstep.
    rewrite <- (utf8_char_reference ch Hch) in Hstep.
    destruct (utf8_char ch) as [b|]; [|discriminate].
    destruct (utf8_encode (S pos) s) as [bs'|e] eqn:Hrest; [|discriminate].
    intros [= <-]. rewrite (Hstep bs' Hch), (IH (S pos) bs' Hrest).
    reflexivity.
Qed.

Lemma encode_injective (a b : str) (payload : bytes) :
  RFC3629.valid_str a -> RFC3629.valid_str b ->
  encode a = Ok payload -> encode b = Ok payload -> a = b.
Proof.
  intros Ha Hb Ea Eb.
  apply (utf8_decode_encode a 0 payload Ha) in Ea.
  apply (utf8_decode_encode b 0 payload Hb) in Eb.
  congruence.
Qed.

End RoundTrip.

Section Sizes.
Local Open Scope N_scope.

Lemma utf8_char_length (ch : codepoint) :
  match utf8_char ch with
  | Some b => (1 <= List.length b <= 4)%nat
  | None => True
  end.
Proof.
  unfold utf8_char.
  destruct (ch <? 0x80); [cbn; lia|].
  destruct (ch <? 0x800); [cbn; lia|].
  destruct (is_surrogate ch); [exact I|].
  destruct (ch <? 0x10000); cbn; lia.
Qed.

Lemma utf8_encode_length (s : str) (pos : nat) (bs : bytes) :
  utf8_encode pos s = Ok bs ->
  (List.length s <= List.length bs <= 4 * List.length s)%nat.
Proof.
  revert pos bs. induction s as [|ch s IH]; intros pos bs; cbn [utf8_encode].
  - intros [= <-]. cbn. lia.
  - pose proof (utf8_char_length ch) as Hlen.
    destruct (utf8_char ch) as [b|]; [|discriminate].
    destruct (utf8_encode (S pos) s) as [bs'|e] eqn:Hrest; [|discriminate].
    intros [= <-]. specialize (IH (S pos) bs' Hrest).
    rewrite length_app. cbn [List.length]. lia.
Qed.

(** A byte below 0x80 in an encoding is a character of the string. *)
Lemma utf8_reference_ascii_byte (ch : codepoint) (x : N) :
  ch <= 0x10FFFF -> x < 0x80 ->
  match RFC3629.utf8_reference ch with
  | Some b => In x b <-> x = ch
  | None => True
  end.
Proof.
  intros Hmax Hx. unfold RFC3629.utf8_reference.
  generalize (ch / 64) (ch / 4096) (ch / 262144) (ch mod 64).
  intros q1 q2 q3 m0. generalize (q1 mod 64) (q2 mod 64). intros m1 m2.
  destruct (N.leb_spec ch 0x7F).
  { cbn [In]. split; [intros [->|[]]; reflexivity|intros ->; left; reflexivity]. }
  destruct (N.leb_spec ch 0x7FF).
  { cbn [In]. split; [intros [?|[?|[]]]; lia|lia]. }
  destruct ((0xD800 <=? ch) && (ch <=? 0xDFFF)); [exact I|].
  destruct (N.leb_spec ch 0xFFFF).
  { cbn [In]. split; [intros [?|[?|[?|[]]]]; lia|lia]. }
  cbn [In]. split; [intros [?|[?|[?|[?|[]]]]]; lia|lia].
Qed.

Lemma utf8_encode_ascii_byte (s : str) (pos : nat) (bs : bytes) (x : N) :
  RFC3629.valid_str s -> x < 0x80 ->
  utf8_encode pos s = Ok bs ->
  (In x bs <-> In x s).
Proof.
  intros H Hx. revert pos bs.
  induction H as [|ch s Hch Hs IH]; intros pos bs; cbn [utf8_encode].
  - intros [= <-]. reflexivity.
  - pose proof (utf8_reference_ascii_byte ch x Hch Hx) as Hb.
    rewrite <- (utf8_char_reference ch Hch) in Hb.
    destruct (utf8_char ch) as [b|]; [|discriminate].
    destruct (utf8_encode (S pos) s) as [bs'|e] eqn:Hrest; [|discriminate].
    intros [= <-]. specialize (IH (S pos) bs' Hrest).
    rewrite in_app_iff. cbn [In]. rewrite Hb, IH. intuition congruence.
Qed.

(** The exception of the encoder names the first surrogate of the string
    and its index. *)
Lemma utf8_encode_raise_first (s : str) (pos : nat) (e : exn) :
  utf8_encode pos s = Raise e ->
  exists (i : nat) (ch : codepoint),
    e = UnicodeEncodeError (pos + i) ch /\
    nth_error s i = Some ch /\
    is_surrogate ch = true /\
    Forall (fun c => is_surrogate c = false) (firstn i s).
Proof.
  revert pos. induction s as [|ch s IH]; intros pos; cbn [utf8_encode].
  - discriminate.
  - destruct (utf8_char ch) as [b|] eqn:Hch.
    + destruct (utf8_encode (S pos) s) as [bs|e'] eqn:Hrest; [discriminate|].
      intros [= <-]. destruct (IH (S pos) Hrest) as [i [c [-> [Hn [Hc Hf]]]]].
      exists (S i), c. repeat split.
      * f_equal. lia.
      * exact Hn.
      * exact Hc.
      * cbn [firstn]. constructor; [|exact Hf].
        destruct (is_surrogate ch) eqn:Hsur; [|reflexivity].
        apply utf8_char_none in Hsur. congruence.
    + intros [= <-]. exists 0%nat, ch. repeat split.
      * f_equal. lia.
      * apply utf8_char_none. exact Hch.
      * constructor.
Qed.

End Sizes.

(** ** Further properties of a run *)

Section Runs.
Import Decoder Calls.
Variable E : env.

Lemma invoker_exits_write_events (payload : bytes) (tr : list event) :
  invoker_exits (write_events payload ++ tr) = invoker_exits tr.
Proof. destruct payload; reflexivity. Qed.

Lemma stdin_sent_main (argv : list str) :
  stdin_sent (events (main E argv)) =
  match encode (selected argv), os_spawn E command with
  | Ok payload, Spawned => payload
  | _, _ => []
  end.
Proof.
  destruct (encode (selected argv)) as [payload|e] eqn:He.
  - destruct (os_spawn E command) eqn:Hs.
    + apply stdin_sent_started; assumption.
    + rewrite main_spec, He, Hs. reflexivity.
    + rewrite main_spec, He, Hs. reflexivity.
  - rewrite main_spec, He. reflexivity.
Qed.

End Runs.

(** X1: the bytes sent are well-formed UTF-8 and lose nothing of the
    argument: the strict decoder accepts them and returns the first
    argument; and the decoder accepts nothing but encodings, so it could
    not have returned the argument for ill-formed bytes. *)
Theorem X1_payload_decodes :
  forall (E : env) (script_name a : str) (rest : list str) (payload : bytes),
    RFC3629.valid_str a ->
    encode a = Ok payload ->
    os_spawn E command = Spawned ->
    Decoder.utf8_decode
      (stdin_sent (events (main E (script_name :: a :: rest)))) = Some a
    /\
    (forall (bs : bytes) (s : str),
        Decoder.utf8_decode bs = Some s ->
        RFC3629.valid_str s /\ encode s = Ok bs).
Proof.
  intros E script_name a rest payload Hv He Hs. split.
  - rewrite (stdin_sent_started E (script_name :: a :: rest) payload He Hs).
    exact (utf8_decode_encode a 0 payload Hv He).
  - exact utf8_decode_sound.
Qed.

Lemma X1_witness :
  RFC3629.valid_str [0x20AC%N; 0x41%N; 0x1F600%N] /\
  encode [0x20AC%N; 0x41%N; 0x1F600%N]
  = Ok [226; 130; 172; 65; 240; 159; 152; 128]%N /\
  os_spawn (env_node 0) command = Spawned /\
  Decoder.utf8_decode
    (stdin_sent (events (main (env_node 0)
                           [prog; [0x20AC%N; 0x41%N; 0x1F600%N]])))
  = Some [0x20AC%N; 0x41%N; 0x1F600%N].
Proof.
  assert (Hv : RFC3629.valid_str [0x20AC%N; 0x41%N; 0x1F600%N]).
  { repeat constructor; discriminate. }
  split; [exact Hv|]. split; [reflexivity|]. split; [reflexivity|].
  exact (proj1 (X1_payload_decodes (env_node 0) prog
                  [0x20AC%N; 0x41%N; 0x1F600%N] []
                  [226; 130; 172; 65; 240; 159; 152; 128]%N
                  Hv eq_refl eq_refl)).
Defined.

(** X2: two runs that send the same bytes were given the same first
    argument: distinct arguments never collide on the child's input. *)
Theorem X2_payload_determines_argument :
  forall (E1 E2 : env) (name1 name2 a b : str) (rest1 rest2 : list str)
         (pa pb : bytes),
    RFC3629.valid_str a -> RFC3629.valid_str b ->
    encode a = Ok pa -> encode b = Ok pb ->
    os_spawn E1 command = Spawned -> os_spawn E2 command = Spawned ->
    stdin_sent (events (main E1 (name1 :: a :: rest1)))
    = stdin_sent (events (main E2 (name2 :: b :: rest2))) ->
    a = b.
Proof.
  intros E1 E2 name1 name2 a b rest1 rest2 pa pb Ha Hb Ea Eb S1 S2.
  rewrite (stdin_sent_started E1 (name1 :: a :: rest1) pa Ea S1).
  rewrite (stdin_sent_started E2 (name2 :: b :: rest2) pb Eb S2).
  intros <-. exact (encode_injective a b pa Ha Hb Ea Eb).
Qed.

Lemma X2_witness :
  RFC3629.valid_str (lit "7") /\
  encode (lit "7") = Ok [55%N] /\
  os_spawn (env_node 0) command = Spawned /\
  os_spawn (env_node 1) command = Spawned /\
  stdin_sent (events (main (env_node 0) [prog; lit "7"]))
  = stdin_sent (events (main (env_node 1) [lit "x.py"; lit "7"; lit "8"])) /\
  lit "7" = lit "7".
Proof.
  assert (Hv : RFC3629.valid_str (lit "7")) by (repeat constructor; discriminate).
  split; [exact Hv|]. split; [reflexivity|]. split; [reflexivity|].
  split; [reflexivity|]. split; [reflexivity|].
  exact (X2_payload_determines_argument (env_node 0) (env_node 1)
           prog (lit "x.py") (lit "7") (lit "7") [] [lit "8"] [55%N] [55%N]
           Hv Hv eq_refl eq_refl eq_refl eq_refl eq_refl).
Defined.

(** X3: the payload has at least one byte and at most four bytes per
    character of the selected string. *)
Theorem X3_payload_length :
  forall (E : env) (argv : list str) (payload : bytes),
    encode (selected argv) = Ok payload ->
    os_spawn E command = Spawned ->
    (List.length (selected argv)
     <= List.length (stdin_sent (events (main E argv)))
     <= 4 * List.length (selected argv))%nat.
Proof.
  intros E argv payload He Hs.
  rewrite (stdin_sent_started E argv payload He Hs).
  exact (utf8_encode_length (selected argv) 0 payload He).
Qed.

Lemma X3_witness :
  encode (selected [prog; [0x1F600%N; 0x41%N]])
  = Ok [240; 159; 152; 128; 65]%N /\
  os_spawn (env_node 0) command = Spawned /\
  (2 <= List.length
          (stdin_sent (events (main (env_node 0) [prog; [0x1F600%N; 0x41%N]])))
   <= 8)%nat.
Proof.
  split; [reflexivity|]. split; [reflexivity|].
  exact (X3_payload_length (env_node 0) [prog; [0x1F600%N; 0x41%N]]
           [240; 159; 152; 128; 65]%N eq_refl eq_refl).
Defined.

(** X4: an argument made of ASCII characters reaches the child byte for
    byte: one byte per character, equal to the character's code. *)
Theorem X4_ascii_argument_verbatim :
  forall (E : env) (script_name a : str) (rest : list str),
    Forall (fun ch => ch < 0x80)%N a ->
    os_spawn E command = Spawned ->
    stdin_sent (events (main E (script_name :: a :: rest))) = a.
Proof.
  intros E script_name a rest Ha Hs.
  apply stdin_sent_started; [|exact Hs].
  exact (utf8_encode_ascii a 0 Ha).
Qed.

Lemma X4_witness :
  Forall (fun ch => ch < 0x80)%N (lit "1 2 +") /\
  os_spawn (env_node 0) command = Spawned /\
  stdin_sent (events (main (env_node 0) [prog; lit "1 2 +"])) = lit "1 2 +".
Proof.
  assert (Ha : Forall (fun ch => ch < 0x80)%N (lit "1 2 +"))
    by (repeat constructor).
  split; [exact Ha|]. split; [reflexivity|].
  exact (X4_ascii_argument_verbatim (env_node 0) prog (lit "1 2 +") []
           Ha eq_refl).
Defined.

(** X5: every byte written to the child is an 8-bit value, whatever the
    run. *)
Theorem X5_payload_bytes_are_octets :
  forall (E : env) (argv : list str),
    RFC3629.valid_str (selected argv) ->
    Forall (fun b => b < 256)%N (stdin_sent (events (main E argv))).
Proof.
  intros E argv Hv. rewrite stdin_sent_main.
  destruct (encode (selected argv)) as [payload|e] eqn:He; [|constructor].
  destruct (os_spawn E command); [|constructor|constructor].
  exact (utf8_encode_range (selected argv) 0 payload Hv He).
Qed.

Lemma X5_witness :
  RFC3629.valid_str (selected [prog; [0x10FFFF%N]]) /\
  Forall (fun b => b < 256)%N
         (stdin_sent (events (main (env_node 0) [prog; [0x10FFFF%N]]))).
Proof.
  assert (Hv : RFC3629.valid_str (selected [prog; [0x10FFFF%N]])).
  { repeat constructor. discriminate. }
  split; [exact Hv|].
  exact (X5_payload_bytes_are_octets (env_node 0) [prog; [0x10FFFF%N]] Hv).
Defined.

(** X6: a byte below 0x80 is on the child's input exactly when the
    argument holds that character: no newline, NUL or other ASCII byte is
    added or removed by the encoding of the other characters. *)
Theorem X6_ascii_bytes_transparent :
  forall (E : env) (script_name a : str) (rest : list str) (payload : bytes)
         (x : N),
    RFC3629.valid_str a ->
    encode a = Ok payload ->
    os_spawn E command = Spawned ->
    (x < 0x80)%N ->
    (In x (stdin_sent (events (main E (script_name :: a :: rest))))
     <-> In x a).
Proof.
  intros E script_name a rest payload x Hv He Hs Hx.
  rewrite (stdin_sent_started E (script_name :: a :: rest) payload He Hs).
  exact (utf8_encode_ascii_byte a 0 payload x Hv Hx He).
Qed.

Lemma X6_witness :
  RFC3629.valid_str [0xE9%N; 0x41%N] /\
  encode [0xE9%N; 0x41%N] = Ok [195; 169; 65]%N /\
  os_spawn (env_node 0) command = Spawned /\
  (10 < 0x80)%N /\
  (In 10%N (stdin_sent (events (main (env_node 0) [prog; [0xE9%N; 0x41%N]])))
   <-> In 10%N [0xE9%N; 0x41%N]).
Proof.
  assert (Hv : RFC3629.valid_str [0xE9%N; 0x41%N])
    by (repeat constructor; discriminate).
  split; [exact Hv|]. split; [reflexivity|]. split; [reflexivity|].
  split; [reflexivity|].
  exact (X6_ascii_bytes_transparent (env_node 0) prog [0xE9%N; 0x41%N] []
           [195; 169; 65]%N 10%N Hv eq_refl eq_refl eq_refl).
Defined.

(** X7: a run can end with only three exceptions.  The selected string
    holds a surrogate: [UnicodeEncodeError] with the index and the code of
    the first one, and nothing was launched.  The program could not be
    executed: the operating system's error, with the file name [node].
    No process could be made: the operating system's error, with no file
    name.  No run ends with [IndexError] or [CalledProcessError], and a
    broken pipe never escapes. *)
Theorem X7_uncaught_exceptions :
  forall (E : env) (argv : list str) (e : exn),
    uncaught (main E argv) = Some e ->
    (exists (i : nat) (ch : codepoint),
        e = UnicodeEncodeError i ch /\
        nth_error (selected argv) i = Some ch /\
        is_surrogate ch = true /\
        Forall (fun c => is_surrogate c = false) (firstn i (selected argv)) /\
        spawn_attempts (events (main E argv)) = [])
    \/
    (exists oe : os_error,
        e = OSError oe (lit "node") /\
        os_spawn E command = SpawnFailed oe /\
        spawn_attempts (events (main E argv)) = [command])
    \/
    (exists oe : os_error,
        e = OSErrorPlain oe /\
        os_spawn E command = ForkFailed oe /\
        spawn_attempts (events (main E argv)) = [command]).
Proof.
  intros E argv e. rewrite spawn_attempts_main, main_spec.
  destruct (encode (selected argv)) as [payload|e'] eqn:He.
  - destruct (os_spawn E command) as [|oe|oe]; [discriminate| |].
    + intros [= <-]. right. left. exists oe. repeat split.
    + intros [= <-]. right. right. exists oe. repeat split.
  - intros [= <-]. left.
    destruct (utf8_encode_raise_first (selected argv) 0 e' He)
      as [i [ch [-> [Hn [Hc Hf]]]]].
    exists i, ch. repeat split; assumption.
Qed.

Lemma X7_witness :
  uncaught (main (env_node 0) [prog; [0x61%N; 0xDCFF%N; 0xD800%N]])
  = Some (UnicodeEncodeError 1 0xDCFF%N) /\
  spawn_attempts
    (events (main (env_node 0) [prog; [0x61%N; 0xDCFF%N; 0xD800%N]])) = [].
Proof.
  split; [reflexivity|].
  destruct (X7_uncaught_exceptions (env_node 0)
              [prog; [0x61%N; 0xDCFF%N; 0xD800%N]]
              (UnicodeEncodeError 1 0xDCFF%N) eq_refl)
    as [[i [ch [_ [_ [_ [_ H]]]]]]|[[oe [H _]]|[oe [H _]]]];
    [exact H|discriminate H|discriminate H].
Defined.

(** X8: the invoker's exit status is 0 or 1; it is 0 exactly when no
    exception escaped, and exactly when a child was launched and waited
    for; the interpreter exits once, as the last thing the run does. *)
Theorem X8_exit_status :
  forall (E : env) (argv : list str),
    (exit_status (main E argv) = 0%Z \/ exit_status (main E argv) = 1%Z) /\
    (exit_status (main E argv) = 0%Z <-> uncaught (main E argv) = None) /\
    (exit_status (main E argv) = 0%Z
     <-> child_exits (events (main E argv)) <> []) /\
    Calls.invoker_exits (events (main E argv)) = [exit_status (main E argv)] /\
    last (events (main E argv)) EvClose = EvExit (exit_status (main E argv)).
Proof.
  intros E argv. rewrite child_exits_main, main_spec.
  destruct (encode (selected argv)) as [payload|e].
  - destruct (os_spawn E command) as [|oe|oe].
    + cbn [exit_status uncaught events Calls.invoker_exits].
      rewrite invoker_exits_write_events.
      replace (last _ EvClose) with (EvExit 0)
        by (destruct payload; reflexivity).
      cbn. repeat split; auto; discriminate.
    + cbn. repeat split; auto; try discriminate; intros H; congruence.
    + cbn. repeat split; auto; try discriminate; intros H; congruence.
  - cbn. repeat split; auto; try discriminate; intros H; congruence.
Qed.

(** X10: the command is launched unless the selected string holds a
    surrogate: no launch is attempted exactly then. *)
Theorem X10_no_launch_iff_surrogate :
  forall (E : env) (argv : list str),
    spawn_attempts (events (main E argv)) = []
    <-> Exists (fun ch => is_surrogate ch = true) (selected argv).
Proof.
  intros E argv. rewrite spawn_attempts_main.
  - pose proof (utf8_encode_ok (selected argv) 0) as Hok. fold (encode (selected argv)) in Hok.
    destruct (encode (selected argv)) as [payload|e] eqn:He.
    + split; [discriminate|]. intros Hex.
      assert (Hall : Forall (fun ch => is_surrogate ch = false) (selected argv))
        by (apply Hok; eexists; reflexivity).
      apply Exists_exists in Hex. destruct Hex as [ch [Hin Hs]].
      rewrite Forall_forall in Hall. specialize (Hall ch Hin). congruence.
    + split; [|reflexivity]. intros _.
      destruct (utf8_encode_raise_first (selected argv) 0 e He)
        as [i [ch [_ [Hn [Hc _]]]]].
      apply Exists_exists. exists ch. split; [|exact Hc].
      exact (nth_error_In _ _ Hn).
Qed.

(** X11: the name under which the script is invoked plays no part: two
    invocations with the same arguments after [sys.argv[0]] are the same
    run, and so is the invocation with an empty [sys.argv]. *)
Theorem X11_script_name_irrelevant :
  forall (E : env) (name1 name2 : str) (args : list str),
    main E (name1 :: args) = main E (name2 :: args) /\
    main E [] = main E [name1].
Proof.
  intros E name1 name2 args. rewrite !main_spec.
  split; [destruct args|]; reflexivity.
Qed.

(** X12: of the whole environment a run consults only whether the fixed
    command can be launched and what that command does with the payload:
    two environments that agree there give the same run. *)
Theorem X12_environment_locality :
  forall (E1 E2 : env) (argv : list str),
    os_spawn E1 command = os_spawn E2 command ->
    (forall payload : bytes,
        encode (selected argv) = Ok payload ->
        child_run E1 command payload = child_run E2 command payload) ->
    main E1 argv = main E2 argv.
Proof.
  intros E1 E2 argv Hs Hc. rewrite !main_spec, <- Hs.
  destruct (encode (selected argv)) as [payload|e]; [|reflexivity].
  destruct (os_spawn E1 command); [|reflexivity|reflexivity].
  rewrite (Hc payload eq_refl). reflexivity.
Qed.

Lemma X12_witness :
  main (env_node 0) [prog; lit "hello"]
  = main {| os_spawn := fun args =>
              match args with
              | [_; _] => Spawned
              | _ => SpawnFailed PermissionError
              end;
            child_run := fun args input =>
              match args with
              | [_; _] => child_exiting 0 args input
              | _ => child_exiting 2 args input
              end |}
         [prog; lit "hello"].
Proof.
  apply X12_environment_locality; [reflexivity|].
  intros payload _. reflexivity.
Defined.
